(** * Collector: organisation of cameras and lights into collections

    A shallow embedding of [src/collector.py], an add-on for a 3D
    content-creation host.  The add-on owns almost no data: everything it
    reads and writes lives in the host's store ([bpy.data], [bpy.context]).
    The store is therefore modelled explicitly as a record [World], and
    every function of the add-on is a computation in a small state and
    exception monad over it.

    Modelling decisions, all about the host and none about the add-on:
    - an object reference is its position in [bpy.data.objects]; the add-on
      never creates or removes objects, so positions are stable identities
      and stand for Python's [id(obj)];
    - a collection of [bpy.data.collections] is identified by its name (the
      key of that container); a scene's root collection is identified by the
      scene;
    - names are byte strings, [str.lower] lowers the ASCII letters and
      [\d] is an ASCII digit;
    - [obj.name = s] stores [s]: the setter is an attribute assignment, as
      the add-on writes it;
    - [scene.objects] is read when a loop over it starts; the objects a
      loop moves stay what the loop goes over;
    - the host's [link] and [unlink] calls may raise [RuntimeError]; whether
      they do is decided by an oracle [Host] that may inspect the whole
      store.  A call that raises leaves the store as it was;
    - an operator runs in a context that has a scene; the handlers read
      [bpy.context.scene], which may be [None]. *)

From Stdlib Require Import Ascii String.
From stdpp Require Import base decidable option list strings gmap sets pretty sorting.

Local Open Scope string_scope.
Local Open Scope list_scope.
Local Open Scope nat_scope.

(** ** Strings *)

Module Str.

(** [c.lower()] on one ASCII character. *)
Definition lower_ascii (c : ascii) : ascii :=
  let n := N_of_ascii c in
  if ((65 <=? n) && (n <=? 90))%N then ascii_of_N (n + 32) else c.

(** [s.lower()]. *)
Fixpoint lower (s : string) : string :=
  match s with
  | EmptyString => EmptyString
  | String c s' => String (lower_ascii c) (lower s')
  end.

(** The line feed character. *)
Definition nl : string := String (ascii_of_nat 10) EmptyString.

(** [sep.join(parts)]. *)
Fixpoint join (sep : string) (parts : list string) : string :=
  match parts with
  | [] => ""
  | [p] => p
  | p :: ps => p +:+ sep +:+ join sep ps
  end.

(** [s[len(p):]] when [s.startswith(p)]. *)
Fixpoint strip_prefix (p s : string) : option string :=
  match p, s with
  | EmptyString, _ => Some s
  | String a p', String b s' =>
      if decide (a = b) then strip_prefix p' s' else None
  | String _ _, EmptyString => None
  end.

(** [s.endswith("/")]. *)
Fixpoint ends_with_slash (s : string) : bool :=
  match s with
  | EmptyString => false
  | String c EmptyString => bool_decide (c = "/"%char)
  | String _ s' => ends_with_slash s'
  end.

(** The value of one decimal digit, [None] for any other character. *)
Definition digit_value (c : ascii) : option nat :=
  let n := nat_of_ascii c in
  if decide (48 ≤ n ∧ n ≤ 57)%nat then Some (n - 48) else None.

(** The longest run of digits at the head of [s]: the value read so far,
    how many digits were read, and the rest of the string.  This is the
    greedy match of [\d+] followed by [int] on the matched group. *)
Fixpoint read_digits (acc count : nat) (s : string) : nat * nat * string :=
  match s with
  | EmptyString => (acc, count, s)
  | String c s' =>
      match digit_value c with
      | Some d => read_digits (10 * acc + d) (S count) s'
      | None => (acc, count, s)
      end
  end.

(** [int(m.group(1))] for [m = re.compile("^" + prefix + "(\d+)$").match(s)],
    [None] when there is no match.  Without the MULTILINE flag [$]
    matches at the end of the string and also just before a line feed
    that ends the string. *)
Definition match_number (prefix s : string) : option nat :=
  match strip_prefix prefix s with
  | None => None
  | Some rest =>
      match read_digits 0 0 rest with
      | (_, 0, _) => None
      | (n, S _, tail) =>
          if decide (tail = "" ∨ tail = nl) then Some n else None
      end
  end.

(** Stable insertion sort by a string key, the result of
    [l.sort(key=key)]: Python's sort is stable, and a stable sort has one
    result only. *)
Section Sort.
Context {A : Type} (key : A → string).

Fixpoint insert_sorted (x : A) (l : list A) : list A :=
  match l with
  | [] => [x]
  | y :: l' =>
      if String.leb (key x) (key y) then x :: l
      else y :: insert_sorted x l'
  end.

Definition sort_by : list A → list A := foldr insert_sorted [].
End Sort.

End Str.

(** ** The host's store *)

(** An object is referred to by its position in [bpy.data.objects], a scene
    by its position in [bpy.data.scenes]. *)
Abbreviation obj_ref := nat (only parsing).
Abbreviation scene_ref := nat (only parsing).

(** A collection: the root collection of a scene ([scene.collection]) or an
    entry of [bpy.data.collections]. *)
Inductive col_ref :=
| SceneCollection (s : scene_ref)
| DataCollection (n : string).

Global Instance col_ref_eq_dec : EqDecision col_ref.
Proof. solve_decision. Defined.

Record Object := mkObject {
  name : string;
  type : string;
  users_collection : list col_ref
}.

Record Scene := mkScene {
  collector_enable_auto : option bool; (* [None]: the property is not registered *)
  camera : option obj_ref
}.

Record Space := mkSpace {
  space_type : string;
  region_3d : option string (* [view_perspective] of the region, if there is one *)
}.

Record Area := mkArea {
  area_type : string;
  regions : list string; (* the [type] of each region *)
  spaces : list Space
}.

Inductive handler := Handle_load_post | Handle_depsgraph_update.

Global Instance handler_eq_dec : EqDecision handler.
Proof. solve_decision. Defined.

Record World := mkWorld {
  objects : list Object;                 (* bpy.data.objects *)
  collections : list string;             (* keys of bpy.data.collections *)
  children : list (col_ref * col_ref);   (* (c, d): d in c.children *)
  scenes : list Scene;
  context_scene : option scene_ref;      (* bpy.context.scene *)
  areas : list Area;                     (* context.window.screen.areas *)
  load_post : list handler;              (* bpy.app.handlers.load_post *)
  depsgraph_update_post : list handler;  (* bpy.app.handlers.depsgraph_update_post *)
  reports : list (string * string);      (* what the operators reported *)
  files : list (string * string);        (* files written: path and content *)
  HANDLERS_REGISTERED : bool;
  TRACKED_OBJECT_IDS : gset nat
}.

Definition with_objects (f : list Object → list Object) (w : World) : World :=
  mkWorld (f (objects w)) (collections w) (children w) (scenes w)
    (context_scene w) (areas w) (load_post w) (depsgraph_update_post w)
    (reports w) (files w) (HANDLERS_REGISTERED w) (TRACKED_OBJECT_IDS w).

Definition with_collections (f : list string → list string) (w : World) : World :=
  mkWorld (objects w) (f (collections w)) (children w) (scenes w)
    (context_scene w) (areas w) (load_post w) (depsgraph_update_post w)
    (reports w) (files w) (HANDLERS_REGISTERED w) (TRACKED_OBJECT_IDS w).

Definition with_children
    (f : list (col_ref * col_ref) → list (col_ref * col_ref)) (w : World) : World :=
  mkWorld (objects w) (collections w) (f (children w)) (scenes w)
    (context_scene w) (areas w) (load_post w) (depsgraph_update_post w)
    (reports w) (files w) (HANDLERS_REGISTERED w) (TRACKED_OBJECT_IDS w).

Definition with_scenes (f : list Scene → list Scene) (w : World) : World :=
  mkWorld (objects w) (collections w) (children w) (f (scenes w))
    (context_scene w) (areas w) (load_post w) (depsgraph_update_post w)
    (reports w) (files w) (HANDLERS_REGISTERED w) (TRACKED_OBJECT_IDS w).

Definition with_areas (f : list Area → list Area) (w : World) : World :=
  mkWorld (objects w) (collections w) (children w) (scenes w)
    (context_scene w) (f (areas w)) (load_post w) (depsgraph_update_post w)
    (reports w) (files w) (HANDLERS_REGISTERED w) (TRACKED_OBJECT_IDS w).

Definition with_handlers (lp dp : list handler) (flag : bool) (w : World) : World :=
  mkWorld (objects w) (collections w) (children w) (scenes w)
    (context_scene w) (areas w) lp dp
    (reports w) (files w) flag (TRACKED_OBJECT_IDS w).

Definition with_report (level msg : string) (w : World) : World :=
  mkWorld (objects w) (collections w) (children w) (scenes w)
    (context_scene w) (areas w) (load_post w) (depsgraph_update_post w)
    (reports w ++ [(level, msg)]) (files w)
    (HANDLERS_REGISTERED w) (TRACKED_OBJECT_IDS w).

Definition with_file (path content : string) (w : World) : World :=
  mkWorld (objects w) (collections w) (children w) (scenes w)
    (context_scene w) (areas w) (load_post w) (depsgraph_update_post w)
    (reports w) (files w ++ [(path, content)])
    (HANDLERS_REGISTERED w) (TRACKED_OBJECT_IDS w).

Definition with_tracked (ids : gset nat) (w : World) : World :=
  mkWorld (objects w) (collections w) (children w) (scenes w)
    (context_scene w) (areas w) (load_post w) (depsgraph_update_post w)
    (reports w) (files w) (HANDLERS_REGISTERED w) ids.

(** The object behind a reference.  The add-on only handles references it
    got from the store; a reference to nothing has no name, no type and no
    collection. *)
Definition obj (w : World) (o : obj_ref) : Object :=
  default (mkObject "" "" []) (objects w !! o).

(** [list(bpy.data.objects)]. *)
Definition data_objects (w : World) : list obj_ref :=
  seq 0 (length (objects w)).

(** [c.name]. *)
Definition col_name (c : col_ref) : string :=
  match c with
  | SceneCollection _ => "Scene Collection"
  | DataCollection n => n
  end.

(** [c.children.keys()]. *)
Definition children_keys (c : col_ref) (w : World) : list string :=
  (λ e, col_name e.2) <$> filter (λ e, e.1 = c) (children w).

(** Whether [dst] is [src] or below it in the collection hierarchy.  A path
    without a repeated edge is no longer than the number of edges, which is
    the fuel [in_scene] gives. *)
Fixpoint reachable (fuel : nat) (edges : list (col_ref * col_ref))
    (src dst : col_ref) : bool :=
  bool_decide (src = dst) ||
  match fuel with
  | 0 => false
  | S fuel' =>
      existsb (λ e, bool_decide (e.1 = src) &&
                    reachable fuel' edges e.2 dst) edges
  end.

(** [obj in scene.objects]: some collection of the object is the scene's
    root collection or below it. *)
Definition in_scene (w : World) (s : scene_ref) (o : obj_ref) : bool :=
  existsb (reachable (length (children w)) (children w) (SceneCollection s))
          (users_collection (obj w o)).

(** [list(scene.objects)]. *)
Definition scene_objects (s : scene_ref) (w : World) : list obj_ref :=
  filter (λ o, in_scene w s o) (data_objects w).

(** [list(col.objects)]. *)
Definition col_objects (c : col_ref) (w : World) : list obj_ref :=
  filter (λ o, c ∈ users_collection (obj w o)) (data_objects w).

(** ** Exceptions and the monad *)

Inductive exn :=
| RuntimeError (msg : string)
| OtherException (cls msg : string).

(** [str(e)]. *)
Definition exn_str (e : exn) : string :=
  match e with RuntimeError m => m | OtherException _ m => m end.

Inductive outcome (A : Type) :=
| Returned (a : A) (w : World)
| Raised (e : exn) (w : World).
Arguments Returned {A} a w.
Arguments Raised {A} e w.

Definition M (A : Type) : Type := World → outcome A.

Global Instance M_ret : MRet M := λ A a w, Returned a w.
Global Instance M_bind : MBind M := λ A B f m w,
  match m w with
  | Returned a w' => f a w'
  | Raised e w' => Raised e w'
  end.

Definition gets {A} (f : World → A) : M A := λ w, Returned (f w) w.
Definition modify (f : World → World) : M unit := λ w, Returned tt (f w).
Definition raise {A} (e : exn) : M A := λ w, Raised e w.

(** [try: body / except RuntimeError: pass]. *)
Definition try_except_RuntimeError_pass (body : M unit) : M unit := λ w,
  match body w with
  | Raised (RuntimeError _) w' => Returned tt w'
  | r => r
  end.

(** [try: body / except Exception as e: handler(e)]. *)
Definition try_except_Exception {A} (body : M A) (handler : exn → M A) : M A :=
  λ w,
  match body w with
  | Raised e w' => handler e w'
  | r => r
  end.

(** [for x in l: body(x)], over a list that was built before the loop. *)
Fixpoint for_each {A} (l : list A) (body : A → M unit) : M unit :=
  match l with
  | [] => mret tt
  | x :: l' => body x ;; for_each l' body
  end.

(** [if b: body]. *)
Definition when (b : bool) (body : M unit) : M unit :=
  if b then body else mret tt.

(** ** What the host decides *)

(** The host's answers to the calls the add-on cannot decide itself. *)
Record Host := mkHost {
  (* [parent.children.link(child)] raises RuntimeError with this message *)
  children_link_error : World → col_ref → col_ref → option string;
  (* [col.objects.link(obj)] raises RuntimeError with this message *)
  objects_link_error : World → col_ref → obj_ref → option string;
  (* [col.objects.unlink(obj)] raises RuntimeError with this message *)
  objects_unlink_error : World → col_ref → obj_ref → option string;
  (* opening [path] for writing, or writing [content], raises *)
  write_error : World → string → string → option exn;
  (* [datetime.datetime.now().strftime("%Y%m%d_%H%M%S")] *)
  now : string;
  (* [bpy.app.tempdir] *)
  tempdir : string;
  (* entering [context.temp_override(...)] for the area at this index raises *)
  temp_override_error : World → nat → option exn;
  (* [bpy.ops.view3d.object_as_camera()] in the area at this index: raises,
     or returns a status set that is or is not [{'FINISHED'}] *)
  object_as_camera : World → nat → exn + bool
}.

Inductive op_status := FINISHED | CANCELLED.

(** The part of [bpy.types.Context] the operators read. *)
Record Context := mkContext {
  ctx_scene : scene_ref;        (* context.scene *)
  ctx_object : option obj_ref;  (* context.object *)
  ctx_window : bool             (* context.window is not None *)
}.

(** ** The add-on *)

Definition TARGET_OBJECT_TYPES : gset string := {[ "CAMERA"; "LIGHT" ]}.
Definition CAMERAS_COLLECTION_NAME : string := "Cameras".
Definition LIGHTS_COLLECTION_NAME : string := "Lights".

(** ["Camera" if obj_type == "CAMERA" else "Light" if obj_type == "LIGHT" else None]. *)
Definition type_name_of (obj_type : string) : option string :=
  if decide (obj_type = "CAMERA") then Some "Camera"
  else if decide (obj_type = "LIGHT") then Some "Light"
  else None.

(** [f"{type_name} {i}"]. *)
Definition numbered (type_name : string) (i : nat) : string :=
  type_name +:+ " " +:+ pretty i.

(** [bool(getattr(scene, "collector_enable_auto", False))], and [False]
    when there is no scene. *)
Definition is_auto_enabled (scene : option scene_ref) (w : World) : bool :=
  match scene with
  | None => false
  | Some s =>
      match scenes w !! s with
      | Some sc => default false (collector_enable_auto sc)
      | None => false
      end
  end.

(** [while new_number in numbers: new_number += 1].  The loop leaves at
    the latest after [size numbers] increments; that much fuel is given. *)
Fixpoint skip_used (fuel : nat) (numbers : gset nat) (new_number : nat) : nat :=
  match fuel with
  | 0 => new_number
  | S fuel' =>
      if decide (new_number ∈ numbers)
      then skip_used fuel' numbers (S new_number)
      else new_number
  end.

(** The set [numbers] that [rename_object_sequentially] collects.  [int]
    of a run of digits does not raise, so that the handler of [ValueError]
    is never entered. *)
Definition used_numbers (type_name obj_type : string) (w : World) : gset nat :=
  foldl (λ numbers o,
           if decide (type (obj w o) = obj_type) then
             match Str.match_number (type_name +:+ " ") (name (obj w o)) with
             | Some n => {[ n ]} ∪ numbers
             | None => numbers
             end
           else numbers)
        ∅ (data_objects w).

(** The lines [write_collection_report(col_name)] appends to [report_lines]. *)
Definition write_collection_report (col_name : string)
    (report_lines : list string) (w : World) : list string :=
  if decide (col_name ∈ collections w) then
    report_lines
      ++ ["Collection '" +:+ col_name +:+ "':"]
      ++ ((λ o, "  - " +:+ name (obj w o) +:+ " (Type: " +:+ type (obj w o) +:+ ")")
            <$> col_objects (DataCollection col_name) w)
      ++ [""]
  else
    report_lines ++ ["Collection '" +:+ col_name +:+ "' not found." +:+ Str.nl].

Section Addon.
Context (host : Host).

(** *** Host calls *)

(** [bpy.data.collections.get(name)]. *)
Definition collections_get (n : string) : M (option col_ref) :=
  gets (λ w, if decide (n ∈ collections w) then Some (DataCollection n) else None).

(** [bpy.data.collections.new(name)]. *)
Definition collections_new (n : string) : M col_ref :=
  modify (with_collections (λ l, l ++ [n]));; mret (DataCollection n).

(** [parent.children.link(child)]. *)
Definition children_link (parent child : col_ref) : M unit := λ w,
  match children_link_error host w parent child with
  | Some msg => Raised (RuntimeError msg) w
  | None => Returned tt (with_children (λ l, l ++ [(parent, child)]) w)
  end.

Definition link_to (c : col_ref) (ob : Object) : Object :=
  mkObject (name ob) (type ob) (users_collection ob ++ [c]).

Definition unlink_from (c : col_ref) (ob : Object) : Object :=
  mkObject (name ob) (type ob) (filter (λ c', c' ≠ c) (users_collection ob)).

Definition rename_to (s : string) (ob : Object) : Object :=
  mkObject s (type ob) (users_collection ob).

(** [c.objects.link(o)]. *)
Definition objects_link (c : col_ref) (o : obj_ref) : M unit := λ w,
  match objects_link_error host w c o with
  | Some msg => Raised (RuntimeError msg) w
  | None => Returned tt (with_objects (alter (link_to c) o) w)
  end.

(** [c.objects.unlink(o)]. *)
Definition objects_unlink (c : col_ref) (o : obj_ref) : M unit := λ w,
  match objects_unlink_error host w c o with
  | Some msg => Raised (RuntimeError msg) w
  | None => Returned tt (with_objects (alter (unlink_from c) o) w)
  end.

(** [o.name = s]. *)
Definition set_name (o : obj_ref) (s : string) : M unit :=
  modify (with_objects (alter (rename_to s) o)).

(** [self.report({level}, msg)]. *)
Definition report (level msg : string) : M unit :=
  modify (with_report level msg).

(** *** Collections *)

Definition find_or_create_collection (n : string) (scene : scene_ref)
    : M col_ref :=
  found ← collections_get n;
  collection ← match found with
               | Some c => mret c
               | None => collections_new n
               end;
  let root := SceneCollection scene in
  keys ← gets (children_keys root);
  when (bool_decide (col_name collection ∉ keys))
       (try_except_RuntimeError_pass (children_link root collection));;
  mret collection.

Definition move_object_exclusively_to_collection (o : obj_ref)
    (target : col_ref) : M unit :=
  users ← gets (λ w, users_collection (obj w o));
  when (bool_decide (target ∉ users))
       (try_except_RuntimeError_pass (objects_link target o));;
  users ← gets (λ w, users_collection (obj w o));
  for_each users (λ col,
    when (bool_decide (col ≠ target))
         (try_except_RuntimeError_pass (objects_unlink col o))).

(** *** Renaming *)

(** [objs] of [rename_objects_sequentially_of_type] after the sort. *)
Definition sorted_objects_of_type (obj_type : string) (w : World)
    : list obj_ref :=
  Str.sort_by (λ o, Str.lower (name (obj w o)))
    (filter (λ o, type (obj w o) = obj_type) (data_objects w)).

Definition rename_objects_sequentially_of_type (obj_type : string) : M unit :=
  match type_name_of obj_type with
  | None => mret tt
  | Some type_name =>
      objs ← gets (sorted_objects_of_type obj_type);
      for_each (zip (seq 1 (length objs)) objs)
               (λ io, set_name io.2 (numbered type_name io.1))
  end.

Definition rename_object_sequentially (o : obj_ref) : M unit :=
  obj_type ← gets (λ w, type (obj w o));
  match type_name_of obj_type with
  | None => mret tt
  | Some type_name =>
      numbers ← gets (used_numbers type_name obj_type);
      let new_number := skip_used (size numbers) numbers 1 in
      set_name o (numbered type_name new_number)
  end.

(** *** Organising a scene *)

(** The body of the loops that move the objects to their collections. *)
Definition move_by_type (cameras_col lights_col : col_ref) (o : obj_ref)
    : M unit :=
  obj_type ← gets (λ w, type (obj w o));
  if decide (obj_type = "CAMERA")
  then move_object_exclusively_to_collection o cameras_col
  else if decide (obj_type = "LIGHT")
  then move_object_exclusively_to_collection o lights_col
  else mret tt.

Definition organize_scene_objects (scene : scene_ref) : M unit :=
  cameras_col ← find_or_create_collection CAMERAS_COLLECTION_NAME scene;
  lights_col ← find_or_create_collection LIGHTS_COLLECTION_NAME scene;
  rename_objects_sequentially_of_type "CAMERA";;
  rename_objects_sequentially_of_type "LIGHT";;
  objs ← gets (scene_objects scene);
  for_each objs (move_by_type cameras_col lights_col).

(** The set comprehension of [rebuild_tracked_ids]. *)
Definition tracked_ids_of (scene : scene_ref) (w : World) : gset nat :=
  list_to_set
    (filter (λ o, type (obj w o) ∈ TARGET_OBJECT_TYPES) (scene_objects scene w)).

Definition rebuild_tracked_ids (scene : scene_ref) : M unit :=
  modify (λ w, with_tracked (tracked_ids_of scene w) w).

(** The list comprehension [new_objects] of [organize_new_objects]. *)
Definition new_objects_of (scene : scene_ref) (w : World) : list obj_ref :=
  filter (λ o, type (obj w o) ∈ TARGET_OBJECT_TYPES ∧ o ∉ TRACKED_OBJECT_IDS w)
         (scene_objects scene w).

Definition organize_new_objects (scene : scene_ref) : M unit :=
  cameras_col ← find_or_create_collection CAMERAS_COLLECTION_NAME scene;
  lights_col ← find_or_create_collection LIGHTS_COLLECTION_NAME scene;
  new_objects ← gets (new_objects_of scene);
  for_each new_objects (λ o,
    rename_object_sequentially o;;
    move_by_type cameras_col lights_col o);;
  rebuild_tracked_ids scene.

(** *** Handlers *)

Definition ensure_handlers_registered : M unit :=
  modify (λ w,
    if HANDLERS_REGISTERED w then w
    else
      let lp := if decide (Handle_load_post ∈ load_post w)
                then load_post w
                else load_post w ++ [Handle_load_post] in
      let dp := if decide (Handle_depsgraph_update ∈ depsgraph_update_post w)
                then depsgraph_update_post w
                else depsgraph_update_post w ++ [Handle_depsgraph_update] in
      with_handlers lp dp true w).

(** [list.remove] in a loop until the handler is gone removes every
    occurrence. *)
Definition ensure_handlers_unregistered : M unit :=
  modify (λ w,
    with_handlers
      (filter (λ h, h ≠ Handle_load_post) (load_post w))
      (filter (λ h, h ≠ Handle_depsgraph_update) (depsgraph_update_post w))
      false w).

Definition handle_load_post : M unit :=
  scene ← gets context_scene;
  enabled ← gets (is_auto_enabled scene);
  match scene with
  | Some s =>
      if (enabled : bool) then
        ensure_handlers_registered;;
        organize_scene_objects s;;
        rebuild_tracked_ids s
      else mret tt
  | None => mret tt
  end.

Definition handle_depsgraph_update : M unit :=
  scene ← gets context_scene;
  match scene with
  | None => mret tt
  | Some s =>
      enabled ← gets (is_auto_enabled scene);
      if (enabled : bool) then organize_new_objects s else mret tt
  end.



(** *** Operators *)


(** [with open(path, "w") as f: f.write(content)]. *)
Definition write_file (path content : string) : M unit := λ w,
  match write_error host w path content with
  | Some e => Raised e w
  | None => Returned tt (with_file path content w)
  end.

(** [os.path.join(dir, file)] for a relative [file], with [/] as the
    separator. *)
Definition path_join (dir file : string) : string :=
  if decide (dir = "" ∨ Str.ends_with_slash dir = true)
  then dir +:+ file
  else dir +:+ "/" +:+ file.

(** [OBJECT_OT_collector_export_report.execute]. *)
Definition collector_export_report_execute (context : Context) : M op_status :=
  report_lines ← gets (λ w,
    write_collection_report LIGHTS_COLLECTION_NAME
      (write_collection_report CAMERAS_COLLECTION_NAME [] w) w);
  let timestamp := now host in
  let filename := "collector_report_" +:+ timestamp +:+ ".txt" in
  let filepath := path_join (tempdir host) filename in
  try_except_Exception
    (write_file filepath (Str.join Str.nl report_lines);;
     report "INFO" ("Collector report saved to: " +:+ filepath);;
     mret FINISHED)
    (λ e,
       report "ERROR" ("Failed to write report: " +:+ exn_str e);;
       mret CANCELLED).

(** [scene.camera = o]. *)
Definition set_camera (scene : scene_ref) (o : obj_ref) : M unit :=
  modify (with_scenes
            (alter (λ sc, mkScene (collector_enable_auto sc) (Some o)) scene)).

(** [space.region_3d.view_perspective = 'CAMERA'] for the space at index
    [j] of the area at index [i]. *)
Definition set_view_perspective_camera (i j : nat) : M unit :=
  modify (with_areas
            (alter (λ a, mkArea (area_type a) (regions a)
                           (alter (λ sp, mkSpace (space_type sp) (Some "CAMERA"))
                                  j (spaces a)))
                   i)).

(** [with context.temp_override(...): body], for the area at index [i]. *)
Definition temp_override {A} (i : nat) (body : M A) : M A := λ w,
  match temp_override_error host w i with
  | Some e => Raised e w
  | None => body w
  end.

(** [bpy.ops.view3d.object_as_camera() == {'FINISHED'}]. *)
Definition ops_object_as_camera_finished (i : nat) : M bool := λ w,
  match object_as_camera host w i with
  | inl e => Raised e w
  | inr finished => Returned finished w
  end.

(** The loop over the areas of the window; the result is [switched].
    The loop is left by [break] as soon as [switched] is set. *)
Fixpoint switch_areas (idx : list nat) : M bool :=
  match idx with
  | [] => mret false
  | i :: idx' =>
      area ← gets (λ w, areas w !! i);
      match area with
      | Some a =>
          if decide (area_type a = "VIEW_3D") then
            let region := list_find (λ r, r = "WINDOW") (regions a) in
            let space := list_find (λ sp, space_type sp = "VIEW_3D") (spaces a) in
            switched ←
              (if bool_decide (is_Some region ∧ is_Some space) then
                 temp_override i
                   (try_except_Exception
                      (ops_object_as_camera_finished i)
                      (λ _, mret false))
               else mret false);
            if (switched : bool) then mret true
            else
              match space with
              | Some (j, sp) =>
                  if bool_decide (is_Some (region_3d sp)) then
                    set_view_perspective_camera i j;; mret true
                  else switch_areas idx'
              | None => switch_areas idx'
              end
          else switch_areas idx'
      | None => switch_areas idx'
      end
  end.

(** [OBJECT_OT_collector_set_active_camera.execute]. *)
Definition collector_set_active_camera_execute (context : Context)
    : M op_status :=
  let scene := ctx_scene context in
  let cancel : M op_status :=
    report "WARNING" "Select a camera object first";; mret CANCELLED in
  match ctx_object context with
  | None => cancel
  | Some o =>
      obj_type ← gets (λ w, type (obj w o));
      if decide (obj_type ≠ "CAMERA") then cancel
      else
        set_camera scene o;;
        try_except_Exception
          (if ctx_window context then
             n ← gets (λ w, length (areas w));
             switch_areas (seq 0 n);; mret tt
           else mret tt)
          (λ _, mret tt);;
        obj_name ← gets (λ w, name (obj w o));
        report "INFO" ("Active camera set to: " +:+ obj_name);;
        mret FINISHED
  end.
End Addon.

(** ** Vocabulary of the statements *)

(** The host never refuses to link or unlink an object. *)
Definition quiet_links (host : Host) : Prop :=
  ∀ w c o, objects_link_error host w c o = None
           ∧ objects_unlink_error host w c o = None.

(** The host never refuses to link a collection under another one. *)
Definition quiet_children (host : Host) : Prop :=
  ∀ w p c, children_link_error host w p c = None.

(** The object with its collections replaced. *)
Definition set_users (us : list col_ref) (ob : Object) : Object :=
  mkObject (name ob) (type ob) us.

(** The store in which the collections of [o] are [us] and nothing else
    differs. *)
Definition moved (o : obj_ref) (us : list col_ref) (w : World) : World :=
  with_objects (alter (set_users us) o) w.

(** The store in which object [o] is called [s] and nothing else differs. *)
Definition renamed (o : obj_ref) (s : string) (w : World) : World :=
  with_objects (alter (rename_to s) o) w.



(** The store a computation ended in, returned or raised. *)
Definition final_store {A} (r : outcome A) : World :=
  match r with Returned _ w | Raised _ w => w end.

(** The path of the report file of [collector_export_report_execute]. *)
Definition report_filepath (host : Host) : string :=
  path_join (tempdir host) ("collector_report_" +:+ now host +:+ ".txt").

(** The text of the report file. *)
Definition report_text (w : World) : string :=
  Str.join Str.nl
    (write_collection_report LIGHTS_COLLECTION_NAME
       (write_collection_report CAMERAS_COLLECTION_NAME [] w) w).






(** The store with [bpy.data.collections] and the hierarchy of collections
    replaced. *)
Definition restructured (cs : list string) (ch : list (col_ref * col_ref))
    (w : World) : World :=
  with_children (λ _, ch) (with_collections (λ _, cs) w).






(** [w'] differs from [w] at most in the objects [S], and there at most in
    their names and collections. *)
Definition changes_only (S : list obj_ref) (w w' : World) : Prop :=
  w' = with_objects (λ _, objects w') w
  ∧ length (objects w') = length (objects w)
  ∧ (∀ o, type (obj w' o) = type (obj w o))
  ∧ (∀ o, o ∉ S → obj w' o = obj w o).

(** ** The rest of the add-on's vocabulary *)

(** [OBJECT_OT_collector_set_active_camera.poll]:
    [obj is not None and obj.type == 'CAMERA']. *)
Definition collector_set_active_camera_poll (context : Context) (w : World)
    : bool :=
  match ctx_object context with
  | None => false
  | Some o => bool_decide (type (obj w o) = "CAMERA")
  end.

(** [w'] differs from [w] in the collections of [o] only, which gained at
    most [target] and did not lose it. *)
Definition relinked_towards (o : obj_ref) (target : col_ref) (w w' : World)
    : Prop :=
  w' = moved o (users_collection (obj w' o)) w
  ∧ (∀ c, c ∈ users_collection (obj w' o) →
          c ∈ users_collection (obj w o) ∨ c = target)
  ∧ (target ∈ users_collection (obj w o) →
     target ∈ users_collection (obj w' o)).


(** How often [h] is in a list of handlers. *)
Definition occurrences (h : handler) (l : list handler) : nat :=
  length (filter (λ h', h' = h) l).



(** The line of the report for object [o]. *)
Definition report_line (w : World) (o : obj_ref) : string :=
  "  - " +:+ name (obj w o) +:+ " (Type: " +:+ type (obj w o) +:+ ")".

(** The list [report_lines] that the export operator joins into the text
    of the report. *)
Definition report_lines (w : World) : list string :=
  write_collection_report LIGHTS_COLLECTION_NAME
    (write_collection_report CAMERAS_COLLECTION_NAME [] w) w.

(** ** Stores and hosts of the examples *)

(** A host that refuses nothing; file writes succeed. *)
Definition quiet_host : Host :=
  mkHost (λ _ _ _, None) (λ _ _ _, None) (λ _ _ _, None) (λ _ _ _, None)
         "20240101_120000" "/tmp/" (λ _ _, None) (λ _ _, inr true).

(** A host whose every [unlink] raises. *)
Definition no_unlink_host : Host :=
  mkHost (λ _ _ _, None) (λ _ _ _, None)
         (λ _ _ _, Some "Object not in collection") (λ _ _ _, None)
         "20240101_120000" "/tmp/" (λ _ _, None) (λ _ _, inr true).

(** A host on which nothing can be written or linked. *)
Definition failing_host : Host :=
  mkHost (λ _ _ _, Some "Collection already in hierarchy")
         (λ _ _ _, Some "Object already in collection")
         (λ _ _ _, Some "Object not in collection")
         (λ _ _ _, Some (OtherException "PermissionError" "Permission denied"))
         "20240101_120000" "/tmp/"
         (λ _ _, Some (OtherException "TypeError" "invalid override"))
         (λ _ _, inl (RuntimeError "context is incorrect")).

(** A store with two scenes, the first of which is the context's and has
    auto-organisation switched on. *)
Definition store (objs : list Object) (cols : list string)
    (ch : list (col_ref * col_ref)) : World :=
  mkWorld objs cols ch
    [mkScene (Some true) None; mkScene (Some true) None] (Some 0)
    [] [] [] [] [] false ∅.

(** Two cameras, of which only the second is in scene 0; a light in the
    root collection of scene 0 and in a collection under it; a mesh. *)
Definition studio : World :=
  store [mkObject "Backup" "CAMERA" [SceneCollection 1];
         mkObject "Main" "CAMERA" [SceneCollection 0];
         mkObject "Sun" "LIGHT" [SceneCollection 0; DataCollection "Props"];
         mkObject "Cube" "MESH" [SceneCollection 0]]
        ["Props"] [(SceneCollection 0, DataCollection "Props")].




(** A store in which auto-organisation is switched off for the scene of
    the context. *)
Definition studio_off : World :=
  mkWorld (objects studio) (collections studio) (children studio)
    [mkScene (Some false) None; mkScene (Some true) None] (Some 0)
    [] [] [] [] [] false ∅.

(** The store after a first organisation of [studio] by the operator,
    to which a camera and a light were added since. *)
Definition studio_grown : World :=
  mkWorld [mkObject "Camera 1" "CAMERA" [SceneCollection 1];
           mkObject "Camera 2" "CAMERA" [DataCollection "Cameras"];
           mkObject "Light 1" "LIGHT" [DataCollection "Lights"];
           mkObject "Cube" "MESH" [SceneCollection 0];
           mkObject "Camera" "CAMERA" [SceneCollection 0];
           mkObject "Point" "LIGHT" [SceneCollection 0]]
          ["Props"; "Cameras"; "Lights"]
          [(SceneCollection 0, DataCollection "Props");
           (SceneCollection 0, DataCollection "Cameras");
           (SceneCollection 0, DataCollection "Lights")]
          [mkScene (Some true) None; mkScene (Some true) None] (Some 0)
          [] [] [] [] [] true {[ 1; 2 ]}.

(** A window with one 3D view. *)
Definition studio_with_view : World :=
  mkWorld (objects studio) (collections studio) (children studio)
    (scenes studio) (Some 0)
    [mkArea "VIEW_3D" ["HEADER"; "WINDOW"] [mkSpace "VIEW_3D" (Some "PERSP")]]
    [] [] [] [] false ∅.

(** * Properties *)

(** ** The monad *)

Ltac munfold :=
  unfold mbind, M_bind, mret, M_ret, gets, modify, when,
    try_except_RuntimeError_pass, try_except_Exception.

Lemma bind_returned {A B} (m : M A) (f : A → M B) w a w' :
  m w = Returned a w' → (m ≫= f) w = f a w'.
Proof. munfold. by intros ->. Qed.

Lemma for_each_cons {A} (x : A) l (body : A → M unit) w w' :
  body x w = Returned tt w' →
  for_each (x :: l) body w = for_each l body w'.
Proof. intros H. simpl. by rewrite (bind_returned _ _ _ _ _ H). Qed.

(** ** Objects of the store *)

Lemma obj_lookup w o ob : objects w !! o = Some ob → obj w o = ob.
Proof. unfold obj. by intros ->. Qed.

Lemma obj_in_range w o : o < length (objects w) → objects w !! o = Some (obj w o).
Proof.
  intros [ob Hob]%lookup_lt_is_Some. by rewrite (obj_lookup _ _ _ Hob).
Qed.

Lemma obj_out_of_range w o :
  ¬ o < length (objects w) → obj w o = mkObject "" "" [].
Proof. intros H. unfold obj. rewrite lookup_ge_None_2; [done|lia]. Qed.

Lemma obj_alter_eq f o w :
  o < length (objects w) →
  obj (with_objects (alter f o) w) o = f (obj w o).
Proof.
  intros H. unfold obj at 1. simpl.
  by rewrite list_lookup_alter_eq, (obj_in_range _ _ H).
Qed.

Lemma obj_alter_ne f o o' w :
  o ≠ o' → obj (with_objects (alter f o) w) o' = obj w o'.
Proof. intros H. unfold obj. simpl. by rewrite list_lookup_alter_ne. Qed.

Lemma type_alter f o o' w :
  (∀ ob, type (f ob) = type ob) →
  type (obj (with_objects (alter f o) w) o') = type (obj w o').
Proof.
  intros Hf. destruct (decide (o = o')) as [<-|]; [|by rewrite obj_alter_ne].
  destruct (decide (o < length (objects w))).
  - by rewrite obj_alter_eq.
  - rewrite !obj_out_of_range; [done..|]. simpl. by rewrite length_alter.
Qed.

Lemma alter_same f o w :
  f (obj w o) = obj w o → with_objects (alter f o) w = w.
Proof.
  intros Hf. destruct w as [objs ? ? ? ? ? ? ? ? ? ? ?].
  unfold with_objects, obj in *; cbn [objects] in *. f_equal.
  apply list_eq. intros i. rewrite list_lookup_alter.
  case_decide; [subst i|done].
  destruct (objs !! o) as [ob|]; simpl in *; by f_equal.
Qed.

Lemma alter_alter_same f g o w :
  with_objects (alter f o) (with_objects (alter g o) w)
  = with_objects (alter (f ∘ g) o) w.
Proof. unfold with_objects. simpl. by rewrite list_alter_alter_eq. Qed.

Lemma alter_at_obj f g o w :
  f (obj w o) = g (obj w o) →
  with_objects (alter f o) w = with_objects (alter g o) w.
Proof.
  intros H. unfold with_objects. f_equal.
  apply list_alter_ext; [|done]. intros ob Hob.
  by rewrite (obj_lookup _ _ _ Hob) in H.
Qed.

Lemma moved_id o w : moved o (users_collection (obj w o)) w = w.
Proof. apply alter_same. by destruct (obj w o). Qed.

Lemma moved_moved o us us' w : moved o us' (moved o us w) = moved o us' w.
Proof. unfold moved. by rewrite alter_alter_same. Qed.

Lemma users_moved o us w :
  o < length (objects w) → users_collection (obj (moved o us w) o) = us.
Proof. intros H. unfold moved. by rewrite obj_alter_eq. Qed.

Lemma obj_moved_ne o o' us w : o ≠ o' → obj (moved o us w) o' = obj w o'.
Proof. apply obj_alter_ne. Qed.

Lemma name_moved o o' us w : name (obj (moved o us w) o') = name (obj w o').
Proof.
  destruct (decide (o = o')) as [<-|]; [|by rewrite obj_moved_ne].
  destruct (decide (o < length (objects w))).
  - unfold moved. by rewrite obj_alter_eq.
  - rewrite !obj_out_of_range; [done..|].
    unfold moved. simpl. by rewrite length_alter.
Qed.

Lemma type_moved o o' us w : type (obj (moved o us w) o') = type (obj w o').
Proof. by apply type_alter. Qed.

Lemma length_moved o us w : length (objects (moved o us w)) = length (objects w).
Proof. unfold moved. simpl. apply length_alter. Qed.

(** ** Moving an object *)

Section Moving.
Context (host : Host).

(** The loop of [move_object_exclusively_to_collection]. *)
Local Abbreviation unlink_others o target :=
  (λ col, when (bool_decide (col ≠ target))
            (try_except_RuntimeError_pass (objects_unlink host col o))).

Lemma objects_link_quiet c o w :
  objects_link_error host w c o = None →
  objects_link host c o w
  = Returned tt (moved o (users_collection (obj w o) ++ [c]) w).
Proof. unfold objects_link. intros ->. f_equal. by apply alter_at_obj. Qed.

Lemma objects_unlink_quiet c o w :
  objects_unlink_error host w c o = None →
  objects_unlink host c o w
  = Returned tt (moved o (filter (λ c', c' ≠ c) (users_collection (obj w o))) w).
Proof. unfold objects_unlink. intros ->. f_equal. by apply alter_at_obj. Qed.

Lemma link_attempt_returns c o w :
  ∃ us, try_except_RuntimeError_pass (objects_link host c o) w
        = Returned tt (moved o us w).
Proof.
  unfold try_except_RuntimeError_pass.
  destruct (objects_link_error host w c o) as [msg|] eqn:E.
  - unfold objects_link. rewrite E. eexists. by rewrite moved_id.
  - rewrite objects_link_quiet by done. eauto.
Qed.

Lemma unlink_attempt_returns c o w :
  ∃ us, try_except_RuntimeError_pass (objects_unlink host c o) w
        = Returned tt (moved o us w).
Proof.
  unfold try_except_RuntimeError_pass.
  destruct (objects_unlink_error host w c o) as [msg|] eqn:E.
  - unfold objects_unlink. rewrite E. eexists. by rewrite moved_id.
  - rewrite objects_unlink_quiet by done. eauto.
Qed.

Lemma unlink_others_returns cols o target w :
  ∃ us, for_each cols (unlink_others o target) w = Returned tt (moved o us w).
Proof.
  revert w. induction cols as [|col cols IH]; intros w.
  - eexists. simpl. munfold. by rewrite moved_id.
  - assert (∃ us, unlink_others o target col w = Returned tt (moved o us w))
      as [us Hus].
    { unfold when. case_bool_decide.
      - apply unlink_attempt_returns.
      - eexists. munfold. by rewrite moved_id. }
    rewrite (for_each_cons col cols (unlink_others o target) _ _ Hus).
    destruct (IH (moved o us w)) as [us' ->].
    eexists. by rewrite moved_moved.
Qed.

(** Whatever the host answers, the function returns, and the store it
    leaves differs from the one it found in the collections of [o] only. *)
Lemma move_returns o target w :
  ∃ us, move_object_exclusively_to_collection host o target w
        = Returned tt (moved o us w).
Proof.
  unfold move_object_exclusively_to_collection.
  assert (∃ us, when (bool_decide (target ∉ users_collection (obj w o)))
                  (try_except_RuntimeError_pass (objects_link host target o)) w
                = Returned tt (moved o us w)) as [us Hus].
  { unfold when. case_bool_decide.
    - apply link_attempt_returns.
    - eexists. munfold. by rewrite moved_id. }
  unfold mbind at 1 2, M_bind, gets. rewrite Hus.
  unfold mbind, M_bind.
  destruct (unlink_others_returns (users_collection (obj (moved o us w) o))
              o target (moved o us w)) as [us' ->].
  eexists. by rewrite moved_moved.
Qed.

(** An object that is in the target collection and in no other is left
    alone: the host is not even called. *)
Lemma unlink_others_noop cols o target w :
  (∀ c, c ∈ cols → c = target) →
  for_each cols (unlink_others o target) w = Returned tt w.
Proof.
  induction cols as [|col cols IH]; intros Hall; [done|].
  simpl. unfold when, mbind, M_bind.
  rewrite bool_decide_eq_false_2.
  - apply IH. intros c Hc. apply Hall. by right.
  - intros Hne. apply Hne, Hall. by left.
Qed.

Lemma move_noop o target w :
  target ∈ users_collection (obj w o) →
  (∀ c, c ∈ users_collection (obj w o) → c = target) →
  move_object_exclusively_to_collection host o target w = Returned tt w.
Proof.
  intros Hin Hall. unfold move_object_exclusively_to_collection.
  unfold mbind at 1 2, M_bind, gets, when.
  rewrite bool_decide_eq_false_2 by (by intros []).
  unfold mret, M_ret, mbind, M_bind. by apply unlink_others_noop.
Qed.

Lemma unlink_others_quiet cols o target w :
  quiet_links host →
  for_each cols (unlink_others o target) w
  = Returned tt
      (moved o (filter (λ c, c = target ∨ c ∉ cols)
                       (users_collection (obj w o))) w).
Proof.
  intros Hq. revert w. induction cols as [|col cols IH]; intros w.
  - simpl. munfold. f_equal. rewrite <-(moved_id o w) at 1. f_equal.
    induction (users_collection (obj w o)) as [|c us IHus]; [done|].
    rewrite filter_cons_True; [by f_equal|]. right. apply not_elem_of_nil.
  - simpl. unfold when, mbind, M_bind. case_bool_decide as Hc.
    + unfold try_except_RuntimeError_pass.
      rewrite objects_unlink_quiet by apply Hq.
      rewrite IH, moved_moved. f_equal. f_equal.
      destruct (decide (o < length (objects w))) as [Hr|Hr].
      * rewrite users_moved by done. rewrite list_filter_filter.
        apply list_filter_iff. intros c. rewrite not_elem_of_cons.
        intuition congruence.
      * rewrite !obj_out_of_range; [done..|]. by rewrite length_moved.
    + subst col. unfold mret, M_ret.
      rewrite IH. f_equal. f_equal.
      apply list_filter_iff. intros c. rewrite not_elem_of_cons.
      destruct (decide (c = target)); tauto.
Qed.

(** When the host refuses nothing, the object ends in the target
    collection and in no other. *)
Lemma move_quiet o target w :
  quiet_links host →
  o < length (objects w) →
  ∃ us, move_object_exclusively_to_collection host o target w
        = Returned tt (moved o us w)
        ∧ ∀ c, c ∈ us ↔ c = target.
Proof.
  intros Hq Hr. unfold move_object_exclusively_to_collection.
  unfold mbind at 1 2, M_bind, gets.
  set (us := users_collection (obj w o)).
  assert (∃ us1, when (bool_decide (target ∉ us))
                   (try_except_RuntimeError_pass (objects_link host target o)) w
                 = Returned tt (moved o us1 w) ∧ target ∈ us1) as (us1 & -> & Hin).
  { unfold when. case_bool_decide as Ht.
    - unfold try_except_RuntimeError_pass.
      rewrite objects_link_quiet by apply Hq.
      eexists; split; [done|]. apply elem_of_app. right. by left.
    - exists us. unfold mret, M_ret, us in *.
      by rewrite moved_id. }
  unfold mbind, M_bind.
  rewrite unlink_others_quiet by done.
  rewrite moved_moved, users_moved by done.
  eexists; split; [done|]. intros c.
  rewrite list_elem_of_filter. split; [tauto|]. intros ->. auto.
Qed.
End Moving.

(** ** Finding or creating a collection *)

Section Collections.
Context (host : Host).

(** The second half of [find_or_create_collection], once the
    collection is there. *)
Lemma link_under_root_returns n scene w :
  ∃ ch,
    (keys ← gets (children_keys (SceneCollection scene));
     when (bool_decide (col_name (DataCollection n) ∉ keys))
          (try_except_RuntimeError_pass
             (children_link host (SceneCollection scene) (DataCollection n)));;
     mret (DataCollection n)) w
    = Returned (DataCollection n) (with_children (λ _, ch) w)
    ∧ children w ⊆ ch
    ∧ (quiet_children host →
       n ∈ children_keys (SceneCollection scene) (with_children (λ _, ch) w)).
Proof.
  assert (with_children (λ _, children w) w = w) as Hid by (by destruct w).
  unfold mbind, M_bind, gets, when. simpl col_name.
  case_bool_decide as Hkey.
  - unfold try_except_RuntimeError_pass, children_link.
    destruct (children_link_error host w (SceneCollection scene)
                (DataCollection n)) as [msg|] eqn:E.
    + exists (children w). rewrite Hid.
      split_and!; [done..|]. intros Hq. by rewrite Hq in E.
    + exists (children w ++ [(SceneCollection scene, DataCollection n)]).
      split_and!; [done| |].
      * intros x Hx. apply elem_of_app. by left.
      * intros _. unfold children_keys. simpl.
        rewrite filter_app, fmap_app. apply elem_of_app. right.
        rewrite filter_cons_True by done. by left.
  - exists (children w). rewrite Hid. split_and!; [done..|]. intros _.
    destruct (decide (n ∈ children_keys (SceneCollection scene) w)); done.
Qed.

(** Whatever the host answers, the function returns the collection of
    that name; the store it leaves has the collection, differs from the
    one it found in the collections and the hierarchy only, and lost
    nothing of either. *)
Lemma find_or_create_returns n scene w :
  ∃ cs ch,
    find_or_create_collection host n scene w
    = Returned (DataCollection n) (restructured cs ch w)
    ∧ n ∈ cs
    ∧ collections w ⊆ cs
    ∧ children w ⊆ ch
    ∧ (quiet_children host →
       n ∈ children_keys (SceneCollection scene) (restructured cs ch w)).
Proof.
  unfold find_or_create_collection, collections_get, collections_new.
  unfold mbind at 1 2, M_bind, gets.
  destruct (decide (n ∈ collections w)) as [Hn|Hn].
  - unfold mret at 1, M_ret at 1.
    destruct (link_under_root_returns n scene w) as (ch & Heq & Hch & Hq).
    exists (collections w), ch. split_and!; [|done..].
    etrans; [exact Heq|]. by destruct w.
  - unfold mbind at 1. unfold modify. unfold mret at 1, M_ret at 1.
    set (w1 := with_collections (λ l, l ++ [n]) w).
    destruct (link_under_root_returns n scene w1) as (ch & Heq & Hch & Hq).
    exists (collections w ++ [n]), ch. split_and!; [|..|done|done].
    + etrans; [exact Heq|]. by destruct w.
    + apply elem_of_app. right. by left.
    + intros x Hx. apply elem_of_app. by left.
Qed.

(** A collection that exists and is a child of the scene's root
    collection is found, and the store is not touched. *)
Lemma find_or_create_noop n scene w :
  n ∈ collections w →
  n ∈ children_keys (SceneCollection scene) w →
  find_or_create_collection host n scene w = Returned (DataCollection n) w.
Proof.
  intros Hn Hkey.
  unfold find_or_create_collection, collections_get.
  unfold mbind, M_bind, gets, when. rewrite decide_True by done.
  unfold mret, M_ret. simpl col_name.
  by rewrite bool_decide_eq_false_2 by (by intros []).
Qed.
End Collections.

(** ** Renaming *)

Section Renaming.












End Renaming.

(** ** Sorting by a key *)

Section Sorting.
Context {A : Type} (key : A → string).








End Sorting.

(** ** Renaming all objects of a type *)

Section RenamingAll.












End RenamingAll.

(** ** Ties in the sort *)

Section Stability.
Context (key : nat → string).





End Stability.



(** ** What a step leaves alone *)

Section Frames.

Lemma changes_only_refl w : changes_only [] w w.
Proof. split_and!; [by destruct w|done..]. Qed.

Lemma changes_only_trans S1 S2 w w1 w2 :
  changes_only S1 w w1 → changes_only S2 w1 w2 →
  changes_only (S1 ++ S2) w w2.
Proof.
  intros (Hs1 & Hl1 & Ht1 & Ho1) (Hs2 & Hl2 & Ht2 & Ho2). split_and!.
  - rewrite Hs2 at 1. rewrite Hs1 at 1. done.
  - congruence.
  - intros o. by rewrite Ht2.
  - intros o Ho. apply not_elem_of_app in Ho as [??].
    rewrite Ho2, Ho1; done.
Qed.

Lemma changes_only_mono S S' w w' :
  S ⊆ S' → changes_only S w w' → changes_only S' w w'.
Proof.
  intros HS (Hs & Hl & Ht & Ho). split_and!; [done..|].
  intros o Hn. apply Ho. intros Hin. by apply Hn, HS.
Qed.

Lemma changes_only_alter f o w :
  (∀ ob, type (f ob) = type ob) →
  changes_only [o] w (with_objects (alter f o) w).
Proof.
  intros Hf. split_and!.
  - done.
  - simpl. apply length_alter.
  - intros o'. by apply type_alter.
  - intros o' Ho. apply obj_alter_ne. intros ->. apply Ho. by left.
Qed.

Lemma changes_only_moved o us w : changes_only [o] w (moved o us w).
Proof. by apply changes_only_alter. Qed.

Lemma changes_only_renamed o s w : changes_only [o] w (renamed o s w).
Proof. by apply changes_only_alter. Qed.



(** A loop whose body returns and changes the object it is at only,
    returns and changes the objects it went over only. *)
Lemma for_each_changes_only (body : obj_ref → M unit) l w :
  (∀ o w, ∃ w', body o w = Returned tt w' ∧ changes_only [o] w w') →
  ∃ w', for_each l body w = Returned tt w' ∧ changes_only l w w'.
Proof.
  intros Hbody. revert w. induction l as [|o l IH]; intros w.
  - exists w. split; [done|apply changes_only_refl].
  - destruct (Hbody o w) as (w1 & H1 & Hc1).
    destruct (IH w1) as (w2 & H2 & Hc2).
    exists w2. split.
    + by rewrite (for_each_cons _ _ _ _ _ H1).
    + by apply (changes_only_trans [o] l w w1 w2).
Qed.

End Frames.

(** ** Objects of a scene *)

Section SceneObjects.











Lemma in_scene_in_range w scene o :
  in_scene w scene o → o < length (objects w).
Proof.
  intros H. destruct (decide (o < length (objects w))) as [|Hr]; [done|].
  unfold in_scene in H. by rewrite (obj_out_of_range _ _ Hr) in H.
Qed.

Lemma elem_of_scene_objects w scene o :
  o ∈ scene_objects scene w ↔ in_scene w scene o.
Proof.
  unfold scene_objects, data_objects.
  rewrite list_elem_of_filter, elem_of_seq. split; [tauto|].
  intros H. split; [done|]. apply in_scene_in_range in H. lia.
Qed.



End SceneObjects.

(** ** Organising a scene *)

Section Organizing.
Context (host : Host).






Lemma move_by_type_returns cc lc o w :
  ∃ us, move_by_type host cc lc o w = Returned tt (moved o us w).
Proof.
  unfold move_by_type, mbind, M_bind, gets.
  repeat case_decide; [apply move_returns..|].
  eexists. unfold mret, M_ret. by rewrite moved_id.
Qed.







End Organizing.

(** ** Running the organiser again *)

Section Again.
Context (host : Host).







End Again.



(** ** Numbers in names *)

Section Numbers.

Lemma append_cons a s1 s2 : String a s1 +:+ s2 = String a (s1 +:+ s2).
Proof. done. Qed.

Lemma append_nil_r s : s +:+ "" = s.
Proof. induction s as [|a s IH]; [done|]. by rewrite append_cons, IH. Qed.

Lemma append_assoc s1 s2 s3 : (s1 +:+ s2) +:+ s3 = s1 +:+ (s2 +:+ s3).
Proof. induction s1 as [|a s1 IH]; [done|]. by rewrite !append_cons, IH. Qed.

Lemma strip_prefix_app p s : Str.strip_prefix p (p +:+ s) = Some s.
Proof.
  induction p as [|a p IH]; [done|].
  rewrite append_cons. simpl. by rewrite decide_True.
Qed.

Lemma digit_value_pretty d :
  (d < 10)%N → Str.digit_value (pretty_N_char d) = Some (N.to_nat d).
Proof.
  intros Hd.
  assert (d = 0 ∨ d = 1 ∨ d = 2 ∨ d = 3 ∨ d = 4 ∨ d = 5 ∨ d = 6 ∨ d = 7
          ∨ d = 8 ∨ d = 9)%N as Hcases by lia.
  repeat (destruct Hcases as [->|Hcases]; [done|]). by subst.
Qed.

Lemma pretty_N_go_app x s : pretty_N_go x s = pretty_N_go x "" +:+ s.
Proof.
  revert s. induction (N.lt_wf_0 x) as [x _ IH]; intros s.
  destruct (decide (0 < x)%N) as [Hx|Hx].
  - assert (x `div` 10 < x)%N as Hlt by (by apply N.div_lt).
    rewrite !(pretty_N_go_step x) by done.
    rewrite (IH _ Hlt (String _ s)), (IH _ Hlt (String _ "")).
    by rewrite append_assoc.
  - assert (x = 0%N) as -> by lia. done.
Qed.

(** Reading back the digits that [pretty] wrote. *)
Lemma read_digits_pretty_N_go x :
  ∃ n, ((0 < x)%N → 0 < n)
       ∧ ∀ acc c s,
           Str.read_digits acc c (pretty_N_go x "" +:+ s)
           = Str.read_digits (acc * 10 ^ n + N.to_nat x) (c + n) s.
Proof.
  induction (N.lt_wf_0 x) as [x _ IH].
  destruct (decide (0 < x)%N) as [Hx|Hx].
  - destruct (IH (x `div` 10)%N) as (n & _ & Hn); [by apply N.div_lt|].
    exists (S n). split; [lia|]. intros acc c s.
    rewrite (pretty_N_go_step x) by done.
    rewrite pretty_N_go_app, append_assoc, Hn, append_cons. simpl.
    rewrite digit_value_pretty by (by apply N.mod_lt).
    f_equal; [|lia].
    pose proof (N.div_mod x 10 ltac:(done)) as Hdm.
    apply (f_equal N.to_nat) in Hdm.
    rewrite N2Nat.inj_add, N2Nat.inj_mul in Hdm.
    change (N.to_nat 10) with 10 in Hdm. lia.
  - assert (x = 0%N) as -> by lia. exists 0. split; [lia|].
    intros acc c s. simpl. f_equal; lia.
Qed.

(** A name the add-on builds is matched by the pattern of
    [rename_object_sequentially], with the number it was built from. *)
Lemma match_number_numbered type_name k :
  Str.match_number (type_name +:+ " ") (numbered type_name k) = Some k.
Proof.
  unfold Str.match_number, numbered.
  rewrite <-append_assoc, strip_prefix_app.
  unfold pretty, pretty_nat, pretty, pretty_N.
  case_decide as Hk.
  - assert (k = 0) as -> by lia. done.
  - destruct (read_digits_pretty_N_go (N.of_nat k)) as (n & Hpos & Hn).
    rewrite <-(append_nil_r (pretty_N_go _ _)), Hn. simpl.
    destruct n as [|n]; [lia|]. f_equal. lia.
Qed.




(** What [rename_object_sequentially] does to an object of a tracked
    type. *)
Lemma rename_object_returns o type_name w :
  type_name_of (type (obj w o)) = Some type_name →
  rename_object_sequentially o w
  = Returned tt
      (renamed o
         (numbered type_name
            (skip_used (size (used_numbers type_name (type (obj w o)) w))
                       (used_numbers type_name (type (obj w o)) w) 1))
         w).
Proof.
  intros Htn. unfold rename_object_sequentially, mbind, M_bind, gets.
  by rewrite Htn.
Qed.

Lemma rename_object_untracked o w :
  type_name_of (type (obj w o)) = None →
  rename_object_sequentially o w = Returned tt w.
Proof.
  intros Htn. unfold rename_object_sequentially, mbind, M_bind, gets.
  by rewrite Htn.
Qed.
End Numbers.


(** ** New objects and the cache *)

Section NewObjects.
Context (host : Host).

Lemma rename_object_changes_only o w :
  ∃ w', rename_object_sequentially o w = Returned tt w'
        ∧ changes_only [o] w w'.
Proof.
  destruct (type_name_of (type (obj w o))) as [type_name|] eqn:Htn.
  - eexists. split; [by apply rename_object_returns|].
    apply changes_only_renamed.
  - exists w. split; [by apply rename_object_untracked|].
    eapply changes_only_mono; [|apply changes_only_refl].
    intros x Hx. by apply elem_of_nil in Hx.
Qed.

(** The body of the loop of [organize_new_objects]. *)
Lemma new_object_body cc lc o w :
  ∃ w', (rename_object_sequentially o;; move_by_type host cc lc o) w
        = Returned tt w'
        ∧ changes_only [o] w w'.
Proof.
  destruct (rename_object_changes_only o w) as (w1 & H1 & Hc1).
  destruct (move_by_type_returns host cc lc o w1) as (us & H2).
  exists (moved o us w1). split.
  - by rewrite (bind_returned _ _ _ _ _ H1).
  - eapply changes_only_mono;
      [|exact (changes_only_trans _ _ _ _ _ Hc1 (changes_only_moved o us w1))].
    intros x Hx. apply elem_of_app in Hx as [?|?]; done.
Qed.

(** [organize_new_objects] always returns.  It makes sure that both
    collections exist, changes the new objects only, and ends by
    rebuilding the cache. *)
Lemma organize_new_returns scene w :
  ∃ cs ch w3,
    organize_new_objects host scene w
    = Returned tt (with_tracked (tracked_ids_of scene w3) w3)
    ∧ changes_only (new_objects_of scene (restructured cs ch w))
                   (restructured cs ch w) w3.
Proof.
  unfold organize_new_objects.
  destruct (find_or_create_returns host CAMERAS_COLLECTION_NAME scene w)
    as (cs1 & ch1 & H1 & _).
  rewrite (bind_returned _ _ _ _ _ H1).
  destruct (find_or_create_returns host LIGHTS_COLLECTION_NAME scene
              (restructured cs1 ch1 w)) as (cs2 & ch2 & H2 & _).
  rewrite (bind_returned _ _ _ _ _ H2).
  change (restructured cs2 ch2 (restructured cs1 ch1 w))
    with (restructured cs2 ch2 w) in *.
  set (w2 := restructured cs2 ch2 w).
  destruct (for_each_changes_only
              (λ o, rename_object_sequentially o;;
                    move_by_type host (DataCollection CAMERAS_COLLECTION_NAME)
                      (DataCollection LIGHTS_COLLECTION_NAME) o)
              (new_objects_of scene w2) w2) as (w3 & H3 & Hc3).
  { intros o w0. apply new_object_body. }
  exists cs2, ch2, w3. split; [|done].
  unfold mbind at 1, M_bind at 1, gets.
  by rewrite (bind_returned _ _ _ _ _ H3).
Qed.


Lemma elem_of_new_objects_of scene w o :
  o ∈ new_objects_of scene w
  ↔ in_scene w scene o
    ∧ type (obj w o) ∈ TARGET_OBJECT_TYPES
    ∧ o ∉ TRACKED_OBJECT_IDS w.
Proof.
  unfold new_objects_of.
  rewrite list_elem_of_filter, elem_of_scene_objects. tauto.
Qed.
End NewObjects.

(** ** The view of the active camera *)

Section Views.
Context (host : Host).

(** The loop over the areas touches the areas only, whether it returns
    or raises. *)
Lemma switch_areas_frame idx w :
  ∃ areas', final_store (switch_areas host idx w)
            = with_areas (λ _, areas') w.
Proof.
  assert (w = with_areas (λ _, areas w) w) as Hid by (by destruct w).
  induction idx as [|i idx IH]; [by exists (areas w)|].
  simpl. unfold mbind, M_bind, gets, mret, M_ret, temp_override,
    try_except_Exception, ops_object_as_camera_finished,
    set_view_perspective_camera, modify.
  repeat (case_match || case_decide || case_bool_decide);
    simplify_eq/=; try done; try (by eexists); by exists (areas w).
Qed.
End Views.


(** * The claims *)

(** C5.  For every object of the store and every target collection, when
    the host refuses no link and no unlink,
    [move_object_exclusively_to_collection] returns and leaves the object
    in the target collection and in no other. *)
Theorem move_object_exclusively_to_collection_exclusive host o target w :
  quiet_links host →
  o < length (objects w) →
  ∃ w', move_object_exclusively_to_collection host o target w = Returned tt w'
        ∧ ∀ c, c ∈ users_collection (obj w' o) ↔ c = target.
Proof.
  intros Hq Hr. destruct (move_quiet host o target w Hq Hr) as (us & -> & Hus).
  eexists. split; [done|]. by rewrite users_moved.
Qed.

Lemma move_object_exclusively_to_collection_exclusive_witness :
  ∃ w', move_object_exclusively_to_collection quiet_host 2
          (DataCollection "Lights") studio = Returned tt w'
        ∧ ∀ c, c ∈ users_collection (obj w' 2) ↔ c = DataCollection "Lights".
Proof.
  apply (move_object_exclusively_to_collection_exclusive quiet_host 2
           (DataCollection "Lights") studio).
  - intros w c o. split; reflexivity.
  - simpl. lia.
Defined.












(** C6.  A link or unlink that the host refuses never gets out of
    [find_or_create_collection] or
    [move_object_exclusively_to_collection]: whatever the host answers,
    both return.  A report file that cannot be written makes the export
    operator report an ERROR with the text of the exception and return
    CANCELLED, with no file written; a report file that can be written
    makes it report INFO and return FINISHED. *)
Theorem failures_swallowed_or_surfaced host :
  (∀ n scene w,
     ∃ w', find_or_create_collection host n scene w
           = Returned (DataCollection n) w')
  ∧ (∀ o target w,
       ∃ w', move_object_exclusively_to_collection host o target w
             = Returned tt w')
  ∧ (∀ context w e,
       write_error host w (report_filepath host) (report_text w) = Some e →
       collector_export_report_execute host context w
       = Returned CANCELLED
           (with_report "ERROR" ("Failed to write report: " +:+ exn_str e) w))
  ∧ (∀ context w,
       write_error host w (report_filepath host) (report_text w) = None →
       collector_export_report_execute host context w
       = Returned FINISHED
           (with_report "INFO"
              ("Collector report saved to: " +:+ report_filepath host)
              (with_file (report_filepath host) (report_text w) w))).
Proof.
  split_and!.
  - intros n scene w.
    destruct (find_or_create_returns host n scene w) as (cs & ch & H & _).
    eauto.
  - intros o target w. destruct (move_returns host o target w) as (us & H).
    eauto.
  - intros context w e He.
    unfold collector_export_report_execute, mbind, M_bind, gets,
      try_except_Exception, write_file.
    fold (report_text w). fold (report_filepath host). by rewrite He.
  - intros context w He.
    unfold collector_export_report_execute, mbind, M_bind, gets,
      try_except_Exception, write_file.
    fold (report_text w). fold (report_filepath host). by rewrite He.
Qed.

Lemma failures_swallowed_or_surfaced_witness :
  (∃ w', move_object_exclusively_to_collection failing_host 2
           (DataCollection "Lights") studio = Returned tt w')
  ∧ collector_export_report_execute failing_host (mkContext 0 None true) studio
    = Returned CANCELLED
        (with_report "ERROR" "Failed to write report: Permission denied" studio)
  ∧ collector_export_report_execute quiet_host (mkContext 0 None true) studio
    = Returned FINISHED
        (with_report "INFO"
           ("Collector report saved to: " +:+ report_filepath quiet_host)
           (with_file (report_filepath quiet_host) (report_text studio) studio)).
Proof.
  destruct (failures_swallowed_or_surfaced failing_host) as (_ & Hmove & Hfail & _).
  destruct (failures_swallowed_or_surfaced quiet_host) as (_ & _ & _ & Hok).
  split_and!.
  - apply Hmove.
  - apply (Hfail (mkContext 0 None true) studio
             (OtherException "PermissionError" "Permission denied")).
    reflexivity.
  - apply Hok. reflexivity.
Defined.

(** C7.  When the context has no scene, or auto-organisation is off for
    its scene, both handlers return and leave the whole store as it was:
    no name, no membership and no collection changes. *)
Theorem handlers_idle_when_disabled host w :
  context_scene w = None ∨ is_auto_enabled (context_scene w) w = false →
  handle_load_post host w = Returned tt w
  ∧ handle_depsgraph_update host w = Returned tt w.
Proof.
  intros Hoff.
  assert (is_auto_enabled (context_scene w) w = false) as Hoff'.
  { destruct Hoff as [-> | ?]; done. }
  unfold handle_load_post, handle_depsgraph_update, mbind, M_bind, gets.
  destruct (context_scene w) as [s|]; [|done]. by rewrite Hoff'.
Qed.

Lemma handlers_idle_when_disabled_witness :
  handle_load_post quiet_host studio_off = Returned tt studio_off
  ∧ handle_depsgraph_update quiet_host studio_off = Returned tt studio_off.
Proof.
  apply (handlers_idle_when_disabled quiet_host studio_off).
  right. reflexivity.
Defined.


(** C9.  [organize_new_objects] always returns, and an object that is in
    the cache when it is called has the same name, the same type and the
    same collections when it returns. *)
Theorem organize_new_objects_leaves_tracked host scene w o :
  o ∈ TRACKED_OBJECT_IDS w →
  ∃ w', organize_new_objects host scene w = Returned tt w'
        ∧ obj w' o = obj w o.
Proof.
  intros Ho.
  destruct (organize_new_returns host scene w)
    as (cs & ch & w3 & -> & _ & _ & _ & Hoff).
  eexists. split; [done|].
  change (obj w3 o = obj (restructured cs ch w) o). apply Hoff.
  rewrite elem_of_new_objects_of. simpl. tauto.
Qed.

Lemma organize_new_objects_leaves_tracked_witness :
  ∃ w', organize_new_objects quiet_host 0 studio_grown = Returned tt w'
        ∧ obj w' 2 = obj studio_grown 2.
Proof.
  apply (organize_new_objects_leaves_tracked quiet_host 0 studio_grown 2).
  vm_compute. reflexivity.
Defined.

(** C10.  Without a context object, or with one that is not a camera,
    the operator reports a warning, returns CANCELLED and leaves every
    scene as it was.  With a camera as the context object and an existing
    scene it returns FINISHED and the scene's active camera is that
    object, whatever the window, the areas and the host's operator do: no
    failure to switch a view changes the result. *)
Theorem collector_set_active_camera_execute_spec host context w :
  (ctx_object context = None
   ∨ (∃ o, ctx_object context = Some o ∧ type (obj w o) ≠ "CAMERA") →
   ∃ w', collector_set_active_camera_execute host context w
         = Returned CANCELLED w'
         ∧ scenes w' = scenes w
         ∧ reports w' = reports w ++ [("WARNING", "Select a camera object first")])
  ∧ (∀ o,
       ctx_object context = Some o →
       type (obj w o) = "CAMERA" →
       ctx_scene context < length (scenes w) →
       ∃ w', collector_set_active_camera_execute host context w
             = Returned FINISHED w'
             ∧ camera <$> scenes w' !! ctx_scene context = Some (Some o)).
Proof.
  split.
  - intros H.
    exists (with_report "WARNING" "Select a camera object first" w).
    split; [|done].
    destruct H as [Hnone|(o & Hsome & Hty)];
      unfold collector_set_active_camera_execute; rewrite ?Hnone, ?Hsome;
      [done|].
    unfold mbind at 1, M_bind at 1, gets. by rewrite decide_True.
  - intros o Hsome Hty Hscene.
    unfold collector_set_active_camera_execute. rewrite Hsome.
    unfold mbind at 1, M_bind at 1, gets. rewrite decide_False by (by intros []).
    unfold mbind at 1, M_bind at 1, set_camera, modify.
    set (w1 := with_scenes _ w).
    assert (∃ areas',
              try_except_Exception
                (if ctx_window context
                 then n ← (λ w0, Returned (length (areas w0)) w0);
                      switch_areas host (seq 0 n);; mret tt
                 else mret tt)
                (λ _, mret tt) w1
              = Returned tt (with_areas (λ _, areas') w1)) as [areas' Htry].
    { unfold try_except_Exception. destruct (ctx_window context).
      - unfold mbind, M_bind.
        destruct (switch_areas_frame host (seq 0 (length (areas w1))) w1)
          as [areas' Hf].
        exists areas'.
        destruct (switch_areas host _ w1) as [b w2|e w2]; simpl in Hf;
          by rewrite Hf.
      - exists (areas w1). unfold mret, M_ret. by destruct w. }
    rewrite (bind_returned _ _ _ _ _ Htry).
    unfold mbind, M_bind, report, modify, mret, M_ret.
    eexists. split; [done|]. simpl.
    rewrite list_lookup_alter_eq.
    destruct (lookup_lt_is_Some_2 _ _ Hscene) as [sc ->]. done.
Qed.

Lemma collector_set_active_camera_execute_spec_witness :
  (∃ w', collector_set_active_camera_execute failing_host
           (mkContext 0 (Some 3) true) studio_with_view
         = Returned CANCELLED w'
         ∧ scenes w' = scenes studio_with_view
         ∧ reports w'
           = reports studio_with_view
             ++ [("WARNING", "Select a camera object first")])
  ∧ ∃ w', collector_set_active_camera_execute failing_host
            (mkContext 0 (Some 1) true) studio_with_view
          = Returned FINISHED w'
          ∧ camera <$> scenes w' !! 0 = Some (Some 1).
Proof.
  destruct (collector_set_active_camera_execute_spec failing_host
              (mkContext 0 (Some 3) true) studio_with_view) as [Hcancel _].
  destruct (collector_set_active_camera_execute_spec failing_host
              (mkContext 0 (Some 1) true) studio_with_view) as [_ Hfinish].
  split.
  - apply Hcancel. right. exists 3. split; [reflexivity|].
    vm_compute. intros H. discriminate H.
  - apply (Hfinish 1); [reflexivity|reflexivity|simpl; lia].
Defined.

(** * Further properties *)

(** ** Collections, once more *)

Section MoreCollections.
Context (host : Host).

Lemma find_or_create_keeps n scene w :
  n ∈ collections w →
  ∃ ch, find_or_create_collection host n scene w
        = Returned (DataCollection n) (with_children (λ _, ch) w).
Proof.
  intros Hn. unfold find_or_create_collection, collections_get.
  unfold mbind at 1 2, M_bind, gets. rewrite decide_True by done.
  unfold mret at 1, M_ret at 1.
  destruct (link_under_root_returns host n scene w) as (ch & Heq & _).
  by exists ch.
Qed.
End MoreCollections.

(** X1.  Whatever the host answers, [find_or_create_collection] returns
    the collection of the given name, which is in [bpy.data.collections]
    afterwards; no collection and no link of the hierarchy is lost, no
    object is touched, and no second collection is made when one of that
    name was there.  When the host links the collection, it is a child of
    the scene's root collection afterwards. *)
Theorem find_or_create_collection_ensures host n scene w :
  ∃ w', find_or_create_collection host n scene w
        = Returned (DataCollection n) w'
        ∧ n ∈ collections w'
        ∧ collections w ⊆ collections w'
        ∧ children w ⊆ children w'
        ∧ objects w' = objects w
        ∧ (n ∈ collections w → collections w' = collections w)
        ∧ (quiet_children host →
           n ∈ children_keys (SceneCollection scene) w').
Proof.
  destruct (find_or_create_returns host n scene w)
    as (cs & ch & Hrun & Hn & Hcs & Hch & Hk).
  exists (restructured cs ch w). split_and!; [done..| |done].
  intros Hin. destruct (find_or_create_keeps host n scene w Hin) as [ch' Hrun'].
  rewrite Hrun in Hrun'. injection Hrun'. intros. simpl. congruence.
Qed.

Lemma find_or_create_collection_ensures_witness :
  ∃ w', find_or_create_collection quiet_host "Props" 0 studio
        = Returned (DataCollection "Props") w'
        ∧ "Props" ∈ collections w'
        ∧ collections studio ⊆ collections w'
        ∧ children studio ⊆ children w'
        ∧ objects w' = objects studio
        ∧ collections w' = collections studio
        ∧ "Props" ∈ children_keys (SceneCollection 0) w'.
Proof.
  destruct (find_or_create_collection_ensures quiet_host "Props" 0 studio)
    as (w' & H1 & H2 & H3 & H4 & H5 & H6 & H7).
  exists w'. split_and!; [done..| |].
  - apply H6. vm_compute. apply list_elem_of_here.
  - apply H7. intros w p c. reflexivity.
Defined.

(** X2.  When the host refuses no link of a collection,
    [find_or_create_collection] is idempotent: a second call returns the
    same collection and leaves the store as the first call left it. *)
Theorem find_or_create_collection_idempotent host n scene w :
  quiet_children host →
  ∃ w1, find_or_create_collection host n scene w
        = Returned (DataCollection n) w1
        ∧ find_or_create_collection host n scene w1
          = Returned (DataCollection n) w1.
Proof.
  intros Hq.
  destruct (find_or_create_returns host n scene w)
    as (cs & ch & Hrun & Hn & _ & _ & Hk).
  exists (restructured cs ch w). split; [done|].
  apply find_or_create_noop; [done|by apply Hk].
Qed.

Lemma find_or_create_collection_idempotent_witness :
  ∃ w1, find_or_create_collection quiet_host "Cameras" 0 studio
        = Returned (DataCollection "Cameras") w1
        ∧ find_or_create_collection quiet_host "Cameras" 0 w1
          = Returned (DataCollection "Cameras") w1.
Proof.
  apply (find_or_create_collection_idempotent quiet_host "Cameras" 0 studio).
  intros w p c. reflexivity.
Defined.

(** ** Moving, whatever the host answers *)

Section MoreMoving.
Context (host : Host).

Lemma moved_out_of_range o us w : ¬ o < length (objects w) → moved o us w = w.
Proof.
  intros Hr. rewrite <-(moved_id o w) at 2. unfold moved, with_objects.
  f_equal. apply list_alter_ext; [|done]. intros ob Hob.
  apply lookup_lt_Some in Hob. lia.
Qed.

Lemma relinked_towards_refl o target w : relinked_towards o target w w.
Proof. split_and!; [by rewrite moved_id|auto..]. Qed.

Lemma relinked_towards_trans o target w w1 w2 :
  relinked_towards o target w w1 → relinked_towards o target w1 w2 →
  relinked_towards o target w w2.
Proof.
  intros (H1 & Hin1 & Ht1) (H2 & Hin2 & Ht2). split_and!.
  - rewrite H2 at 1. rewrite H1 at 1. by rewrite moved_moved.
  - intros c Hc. destruct (Hin2 c Hc) as [?|?]; auto.
  - auto.
Qed.

(** Replacing the collections of an object by some that add [target] at
    most and keep it. *)
Lemma relinked_towards_moved o target us w :
  (∀ c, c ∈ us → c ∈ users_collection (obj w o) ∨ c = target) →
  (target ∈ users_collection (obj w o) → target ∈ us) →
  relinked_towards o target w (moved o us w).
Proof.
  intros Hin Ht. destruct (decide (o < length (objects w))) as [Hr|Hr].
  - split_and!; rewrite users_moved by done; done.
  - rewrite moved_out_of_range by done. apply relinked_towards_refl.
Qed.

Lemma link_attempt_towards o target w :
  ∃ w', try_except_RuntimeError_pass (objects_link host target o) w
        = Returned tt w'
        ∧ relinked_towards o target w w'.
Proof.
  unfold try_except_RuntimeError_pass.
  destruct (objects_link_error host w target o) as [msg|] eqn:E.
  - exists w. unfold objects_link. rewrite E.
    split; [done|apply relinked_towards_refl].
  - rewrite objects_link_quiet by done. eexists. split; [done|].
    apply relinked_towards_moved.
    + intros c [?|Hc]%elem_of_app; [by left|right].
      by apply list_elem_of_singleton in Hc.
    + intros Ht. apply elem_of_app. by left.
Qed.

Lemma unlink_attempt_towards col o target w :
  col ≠ target →
  ∃ w', try_except_RuntimeError_pass (objects_unlink host col o) w
        = Returned tt w'
        ∧ relinked_towards o target w w'.
Proof.
  intros Hne. unfold try_except_RuntimeError_pass.
  destruct (objects_unlink_error host w col o) as [msg|] eqn:E.
  - exists w. unfold objects_unlink. rewrite E.
    split; [done|apply relinked_towards_refl].
  - rewrite objects_unlink_quiet by done. eexists. split; [done|].
    apply relinked_towards_moved.
    + intros c [_ Hc]%list_elem_of_filter. by left.
    + intros Ht. apply list_elem_of_filter. split; [congruence|done].
Qed.

Lemma unlink_loop_towards cols o target w :
  ∃ w', for_each cols (λ col,
          when (bool_decide (col ≠ target))
               (try_except_RuntimeError_pass (objects_unlink host col o))) w
        = Returned tt w'
        ∧ relinked_towards o target w w'.
Proof.
  revert w. induction cols as [|col cols IH]; intros w.
  - exists w. split; [done|apply relinked_towards_refl].
  - assert (∃ w1, when (bool_decide (col ≠ target))
                    (try_except_RuntimeError_pass (objects_unlink host col o)) w
                  = Returned tt w1
                  ∧ relinked_towards o target w w1) as (w1 & H1 & Hr1).
    { unfold when. case_bool_decide.
      - by apply unlink_attempt_towards.
      - exists w. split; [done|apply relinked_towards_refl]. }
    destruct (IH w1) as (w2 & H2 & Hr2). exists w2. split.
    + simpl. unfold mbind, M_bind. by rewrite H1.
    + by eapply relinked_towards_trans.
Qed.

Lemma move_towards o target w :
  ∃ w', move_object_exclusively_to_collection host o target w = Returned tt w'
        ∧ relinked_towards o target w w'.
Proof.
  unfold move_object_exclusively_to_collection.
  assert (∃ w1, when (bool_decide (target ∉ users_collection (obj w o)))
                  (try_except_RuntimeError_pass (objects_link host target o)) w
                = Returned tt w1
                ∧ relinked_towards o target w w1) as (w1 & H1 & Hr1).
  { unfold when. case_bool_decide.
    - apply link_attempt_towards.
    - exists w. split; [done|apply relinked_towards_refl]. }
  unfold mbind at 1 2, M_bind, gets. rewrite H1.
  unfold mbind, M_bind.
  destruct (unlink_loop_towards (users_collection (obj w1 o)) o target w1)
    as (w2 & H2 & Hr2).
  exists w2. split; [done|]. by eapply relinked_towards_trans.
Qed.
End MoreMoving.

(** X3.  Whatever the host would answer, an object that is in the target
    collection and in no other is left alone by
    [move_object_exclusively_to_collection]: the store is unchanged and the
    host is not asked to link or unlink anything. *)
Theorem move_object_exclusively_to_collection_settled host o target w :
  (∀ c, c ∈ users_collection (obj w o) ↔ c = target) →
  move_object_exclusively_to_collection host o target w = Returned tt w.
Proof.
  intros H. apply move_noop; [by apply H|]. intros c. apply H.
Qed.

Lemma move_object_exclusively_to_collection_settled_witness :
  move_object_exclusively_to_collection failing_host 1
    (DataCollection "Cameras") studio_grown
  = Returned tt studio_grown.
Proof.
  apply (move_object_exclusively_to_collection_settled failing_host 1
           (DataCollection "Cameras") studio_grown).
  intros c. simpl. rewrite list_elem_of_singleton. reflexivity.
Defined.

(** X4.  Whatever the host answers,
    [move_object_exclusively_to_collection] returns; the object is then in
    no collection it was not in before, except possibly the target; it is
    still in the target if it was; its name and type, and every other
    object, are as before, and so are the collections and their
    hierarchy. *)
Theorem move_object_exclusively_to_collection_frame host o target w :
  ∃ w', move_object_exclusively_to_collection host o target w = Returned tt w'
        ∧ (∀ c, c ∈ users_collection (obj w' o) →
                c ∈ users_collection (obj w o) ∨ c = target)
        ∧ (target ∈ users_collection (obj w o) →
           target ∈ users_collection (obj w' o))
        ∧ name (obj w' o) = name (obj w o)
        ∧ type (obj w' o) = type (obj w o)
        ∧ (∀ o', o' ≠ o → obj w' o' = obj w o')
        ∧ collections w' = collections w
        ∧ children w' = children w.
Proof.
  destruct (move_towards host o target w) as (w' & Hrun & Hw' & Hin & Ht).
  exists w'. split_and!; [done..| | | | |].
  - rewrite Hw'. apply name_moved.
  - rewrite Hw'. apply type_moved.
  - intros o' Hne. rewrite Hw'. by apply obj_moved_ne.
  - by rewrite Hw'.
  - by rewrite Hw'.
Qed.

Lemma move_object_exclusively_to_collection_frame_witness :
  ∃ w', move_object_exclusively_to_collection no_unlink_host 2
          (DataCollection "Props") studio = Returned tt w'
        ∧ DataCollection "Props" ∈ users_collection (obj w' 2).
Proof.
  destruct (move_object_exclusively_to_collection_frame no_unlink_host 2
              (DataCollection "Props") studio) as (w' & Hrun & _ & Ht & _).
  exists w'. split; [done|]. apply Ht.
  simpl. apply list_elem_of_further, list_elem_of_here.
Defined.

(** ** Renaming, once more *)

Section MoreRenaming.



End MoreRenaming.





(** ** The pattern of numbered names *)

Section Pattern.




End Pattern.


(** X8.  A name that the add-on builds for a number, ["{TypeName} {k}"],
    is read back by the pattern of [rename_object_sequentially] as that
    number: writing and reading the number are inverse. *)
Theorem numbered_name_round_trip type_name k :
  Str.match_number (type_name +:+ " ") (numbered type_name k) = Some k.
Proof. apply match_number_numbered. Qed.


(** ** The next number *)

Section NextNumber.

End NextNumber.





(** ** Organising, whatever the host answers *)

Section MoreOrganizing.
Context (host : Host).





End MoreOrganizing.



(** ** After an organising pass *)

Section AfterOrganizing.
Context (host : Host).

Lemma filter_nil_forall {A} (P : A → Prop) `{∀ x, Decision (P x)} l :
  (∀ x, x ∈ l → ¬ P x) → filter P l = [].
Proof.
  induction l as [|x l IH]; intros Hl; [done|].
  rewrite filter_cons, decide_False by (apply Hl; by left).
  apply IH. intros y Hy. apply Hl. by right.
Qed.


End AfterOrganizing.



(** ** What becomes of new objects *)

Section MoreNewObjects.
Context (host : Host).



End MoreNewObjects.



(** ** The callbacks and the organise operator *)

Section Callbacks.
Context (host : Host).

Lemma bind_gets {A B} (f : World → A) (k : A → M B) w :
  (gets f ≫= k) w = k (f w) w.
Proof. done. Qed.

Lemma bind_modify {B} (f : World → World) (k : unit → M B) w :
  (modify f ≫= k) w = k tt (f w).
Proof. done. Qed.

End Callbacks.



(** ** Registering the handlers *)

Section Handlers.

Lemma occurrences_removed h l : occurrences h (filter (λ h', h' ≠ h) l) = 0.
Proof.
  unfold occurrences. rewrite list_filter_filter.
  rewrite (filter_nil_forall _ l); [done|]. intros x _ [? ?]. done.
Qed.

Lemma occurrences_app h l1 l2 :
  occurrences h (l1 ++ l2) = occurrences h l1 + occurrences h l2.
Proof. unfold occurrences. by rewrite filter_app, length_app. Qed.

Lemma occurrences_positive h l : h ∈ l ↔ 0 < occurrences h l.
Proof.
  unfold occurrences. split.
  - intros Hin. assert (h ∈ filter (λ h', h' = h) l) as Hf
      by (by apply list_elem_of_filter).
    destruct (filter _ l); [by apply elem_of_nil in Hf|simpl; lia].
  - intros Hpos. destruct (filter _ l) as [|x l'] eqn:E; [simpl in Hpos; lia|].
    assert (x ∈ filter (λ h', h' = h) l) as Hx by (rewrite E; by left).
    by apply list_elem_of_filter in Hx as [-> ?].
Qed.
End Handlers.

(** X16.  Unregistering and then registering the handlers leaves each
    handler exactly once in its list and the flag set, however often the
    handlers were in the lists before and whatever the flag said.
    Registering and then unregistering leaves neither handler in either
    list and the flag cleared. *)
Theorem handlers_round_trip w :
  (∃ w', (ensure_handlers_unregistered;; ensure_handlers_registered) w
         = Returned tt w'
         ∧ occurrences Handle_load_post (load_post w') = 1
         ∧ occurrences Handle_depsgraph_update (depsgraph_update_post w') = 1
         ∧ HANDLERS_REGISTERED w' = true)
  ∧ (∃ w', (ensure_handlers_registered;; ensure_handlers_unregistered) w
           = Returned tt w'
           ∧ (Handle_load_post ∉ load_post w')
           ∧ (Handle_depsgraph_update ∉ depsgraph_update_post w')
           ∧ HANDLERS_REGISTERED w' = false).
Proof.
  split.
  - eexists. split; [reflexivity|]. simpl.
    rewrite !decide_False.
    + rewrite !occurrences_app, !occurrences_removed. done.
    + rewrite list_elem_of_filter. tauto.
    + rewrite list_elem_of_filter. tauto.
  - eexists. split; [reflexivity|]. simpl. split_and!; [| |done].
    + rewrite list_elem_of_filter. tauto.
    + rewrite list_elem_of_filter. tauto.
Qed.

(** ** The active camera, once more *)

Section MoreViews.
Context (host : Host).

Lemma set_active_camera_cancels context w :
  collector_set_active_camera_poll context w = false →
  collector_set_active_camera_execute host context w
  = Returned CANCELLED (with_report "WARNING" "Select a camera object first" w).
Proof.
  unfold collector_set_active_camera_poll, collector_set_active_camera_execute.
  destruct (ctx_object context) as [o|]; [|done].
  intros Hpoll%bool_decide_eq_false. rewrite bind_gets.
  by rewrite decide_True.
Qed.

Lemma set_active_camera_finishes context o w :
  ctx_object context = Some o →
  type (obj w o) = "CAMERA" →
  ∃ areas',
    collector_set_active_camera_execute host context w
    = Returned FINISHED
        (with_report "INFO" ("Active camera set to: " +:+ name (obj w o))
           (with_areas (λ _, areas')
              (with_scenes
                 (alter (λ sc, mkScene (collector_enable_auto sc) (Some o))
                        (ctx_scene context)) w))).
Proof.
  intros Hsome Hty. unfold collector_set_active_camera_execute.
  rewrite Hsome, bind_gets, decide_False by (by intros []).
  unfold set_camera. rewrite bind_modify.
  set (w1 := with_scenes _ w).
  assert (∃ areas',
            try_except_Exception
              (if ctx_window context
               then n ← gets (λ w0, length (areas w0));
                    switch_areas host (seq 0 n);; mret tt
               else mret tt)
              (λ _, mret tt) w1
            = Returned tt (with_areas (λ _, areas') w1)) as [areas' Htry].
  { unfold try_except_Exception. destruct (ctx_window context).
    - rewrite bind_gets. unfold mbind, M_bind.
      destruct (switch_areas_frame host (seq 0 (length (areas w1))) w1)
        as [areas' Hf].
      exists areas'.
      destruct (switch_areas host _ w1) as [b w2|e w2]; simpl in Hf;
        by rewrite Hf.
    - exists (areas w1). unfold mret, M_ret. by destruct w. }
  exists areas'. rewrite (bind_returned _ _ _ _ _ Htry). done.
Qed.
End MoreViews.

(** X17.  [poll] and [execute] of the set-active-camera operator agree:
    whatever the host answers, [execute] returns FINISHED when [poll]
    holds of the context and CANCELLED when it does not. *)
Theorem collector_set_active_camera_poll_execute host context w :
  ∃ w', collector_set_active_camera_execute host context w
        = Returned (if collector_set_active_camera_poll context w
                    then FINISHED else CANCELLED) w'.
Proof.
  destruct (collector_set_active_camera_poll context w) eqn:Hpoll.
  - unfold collector_set_active_camera_poll in Hpoll.
    destruct (ctx_object context) as [o|] eqn:Ho; [|done].
    apply bool_decide_eq_true in Hpoll.
    destruct (set_active_camera_finishes host context o w Ho Hpoll)
      as [areas' ->].
    by eexists.
  - rewrite set_active_camera_cancels by done. by eexists.
Qed.

(** X18.  Whatever the host answers, the set-active-camera operator
    reports exactly one message and touches nothing of the add-on's
    business: the objects, the collections and their hierarchy, the
    cache, the files, the toggle of every scene and the active camera of
    every other scene are as before. *)
Theorem collector_set_active_camera_execute_frame host context w :
  ∃ status w',
    collector_set_active_camera_execute host context w = Returned status w'
    ∧ objects w' = objects w
    ∧ collections w' = collections w
    ∧ children w' = children w
    ∧ TRACKED_OBJECT_IDS w' = TRACKED_OBJECT_IDS w
    ∧ files w' = files w
    ∧ length (reports w') = S (length (reports w))
    ∧ (∀ s, collector_enable_auto <$> scenes w' !! s
            = collector_enable_auto <$> scenes w !! s)
    ∧ (∀ s, s ≠ ctx_scene context → scenes w' !! s = scenes w !! s).
Proof.
  destruct (collector_set_active_camera_poll context w) eqn:Hpoll.
  - unfold collector_set_active_camera_poll in Hpoll.
    destruct (ctx_object context) as [o|] eqn:Ho; [|done].
    apply bool_decide_eq_true in Hpoll.
    destruct (set_active_camera_finishes host context o w Ho Hpoll)
      as [areas' ->].
    eexists _, _. split_and!; [done..| | |]; simpl.
    + rewrite length_app. simpl. lia.
    + intros s. rewrite list_lookup_alter. case_decide; [subst s|done].
      by destruct (scenes w !! ctx_scene context).
    + intros s Hne. by rewrite list_lookup_alter_ne.
  - rewrite set_active_camera_cancels by done.
    eexists _, _. split_and!; [done..| |done|done]; simpl.
    rewrite length_app. simpl. lia.
Qed.

(** ** The report *)

Section Report.

Lemma write_collection_report_keeps col_name acc w line :
  line ∈ acc → line ∈ write_collection_report col_name acc w.
Proof.
  intros Hin. unfold write_collection_report.
  case_decide; apply elem_of_app; by left.
Qed.

Lemma write_collection_report_missing col_name acc w :
  col_name ∉ collections w →
  ("Collection '" +:+ col_name +:+ "' not found." +:+ Str.nl)
    ∈ write_collection_report col_name acc w.
Proof.
  intros Hn. unfold write_collection_report. rewrite decide_False by done.
  apply elem_of_app. right. by left.
Qed.

Lemma write_collection_report_lists col_name acc w o :
  col_name ∈ collections w →
  o < length (objects w) →
  DataCollection col_name ∈ users_collection (obj w o) →
  ("Collection '" +:+ col_name +:+ "':")
    ∈ write_collection_report col_name acc w
  ∧ report_line w o ∈ write_collection_report col_name acc w.
Proof.
  intros Hn Hr Hin. unfold write_collection_report. rewrite decide_True by done.
  split.
  - apply elem_of_app. right. by left.
  - apply elem_of_app. right. apply elem_of_app. right. apply elem_of_app. left.
    apply list_elem_of_fmap. exists o. split; [done|].
    unfold col_objects, data_objects.
    apply list_elem_of_filter. split; [done|]. apply elem_of_seq. lia.
Qed.

End Report.

(** X19.  The text of the report is the lines of [report_lines] joined
    by line feeds.  For 'Cameras' and for 'Lights', a collection that does
    not exist gets the line "Collection '...' not found." with a line feed
    of its own, and a collection that exists gets its heading and one line
    with name and type for every object that is linked to it. *)
Theorem report_lines_content w col_name :
  col_name = CAMERAS_COLLECTION_NAME ∨ col_name = LIGHTS_COLLECTION_NAME →
  report_text w = Str.join Str.nl (report_lines w)
  ∧ (col_name ∉ collections w →
     ("Collection '" +:+ col_name +:+ "' not found." +:+ Str.nl)
       ∈ report_lines w)
  ∧ (col_name ∈ collections w →
     ∀ o, o < length (objects w) →
          DataCollection col_name ∈ users_collection (obj w o) →
          ("Collection '" +:+ col_name +:+ "':") ∈ report_lines w
          ∧ report_line w o ∈ report_lines w).
Proof.
  intros Hcol. split_and!; [done| |].
  - intros Hn. unfold report_lines. destruct Hcol as [-> | ->].
    + by apply write_collection_report_keeps, write_collection_report_missing.
    + by apply write_collection_report_missing.
  - intros Hn o Hr Hin. unfold report_lines. destruct Hcol as [-> | ->].
    + destruct (write_collection_report_lists CAMERAS_COLLECTION_NAME [] w o)
        as [H1 H2]; [done..|].
      split; by apply write_collection_report_keeps.
    + by apply write_collection_report_lists.
Qed.

Lemma report_lines_content_witness :
  report_text studio_grown = Str.join Str.nl (report_lines studio_grown)
  ∧ ("Collection 'Cameras':") ∈ report_lines studio_grown
  ∧ "  - Camera 2 (Type: CAMERA)" ∈ report_lines studio_grown.
Proof.
  destruct (report_lines_content studio_grown "Cameras") as (H1 & _ & H3).
  { left. reflexivity. }
  split; [exact H1|]. apply (H3 ltac:(vm_compute; repeat constructor) 1).
  - simpl. lia.
  - simpl. apply list_elem_of_here.
Defined.


